(** * qTox audio devices: [Device] and [StreamContext] over the RtAudio engine

    Shallow embedding of [src/audio/devices.cpp].  The unit is a thin layer
    over the RtAudio library: it enumerates devices, looks one up by name,
    builds the stream parameters of a [StreamContext] and drives the stream
    life cycle (open / close / start / stop).

    The engine itself is not part of the unit.  It enters the development as
    an interface ([RtAudio.Api]) over an abstract engine state; everything
    proved here holds for every engine that implements the interface, and a
    small test engine ([TestEngine]) instantiates it so that the functions
    can be run. *)

From Stdlib Require Import ZArith List String Bool Lia.
From Equations Require Import Equations.
Import ListNotations.

Local Open Scope Z_scope.

(** ** Machine integers

    [int] and [unsigned int] are 32 bits wide; values are carried as [Z] and
    the conversions of the source are written out. *)

Definition UINT_MAX : Z := 4294967295.
Definition INT_MAX : Z := 2147483647.

(** [static_cast<quint32>(x)] and unsigned arithmetic: reduction modulo 2^32. *)
Definition to_uint (z : Z) : Z := z mod 4294967296.

(** [static_cast<int>(x)]: the two's complement reading of the low 32 bits. *)
Definition to_int (z : Z) : Z :=
  let m := z mod 4294967296 in
  if m <? 2147483648 then m else m - 4294967296.

(** [i++] on an [unsigned int]. *)
Definition uint_incr (i : Z) : Z := to_uint (i + 1).

(** The loops of this unit run an [unsigned int] index up to the engine's
    device count; the number of indices left decreases at each round. *)
Ltac loop_variant count_range :=
  match goal with
  | Hlt : ?i < ?c |- (Z.to_nat (?c - uint_incr ?i) < Z.to_nat (?c - ?i))%nat =>
      pose proof count_range;
      pose proof (Z.mod_pos_bound (i + 1) 4294967296 eq_refl);
      unfold uint_incr, to_uint, UINT_MAX in *;
      destruct (Z_lt_dec i 0);
      [ lia | rewrite Z.mod_small by lia; lia ]
  end.

(** ** The RtAudio declarations the unit uses *)

Module RtAudio.

(** Modelled from the spec: [RtAudio::DeviceInfo] is declared in
    [RtAudio.h], outside this unit.  The fields are the ones the accessors
    of [Device] read (name, the three channel counts, the probe flag, the
    default-output flag) together with the default-input flag the spec
    lists among the attributes of a device. *)
Record DeviceInfo : Type := mkDeviceInfo {
  probed : bool;
  name : string;
  outputChannels : Z;
  inputChannels : Z;
  duplexChannels : Z;
  isDefaultOutput : bool;
  isDefaultInput : bool
}.

(** Modelled from the spec: [RtAudio::StreamParameters] ([RtAudio.h]), the
    three fields [create] assigns. *)
Record StreamParameters : Type := mkStreamParameters {
  deviceId : Z;
  nChannels : Z;
  firstChannel : Z
}.

(** Modelled from the spec: [RtAudio::StreamOptions] ([RtAudio.h]).  The
    unit only ever passes the pointer along. *)
Record StreamOptions : Type := mkStreamOptions {
  flags : Z;
  numberOfBuffers : Z;
  streamName : string;
  priority : Z
}.

(** Modelled from the spec: the sample formats of [RtAudio.h]; the unit
    uses the 16-bit signed one. *)
Inductive RtAudioFormat : Type :=
| RTAUDIO_SINT8
| RTAUDIO_SINT16
| RTAUDIO_SINT24
| RTAUDIO_SINT32
| RTAUDIO_FLOAT32
| RTAUDIO_FLOAT64.

(** The error callbacks the unit can hand to the engine: there is one,
    the static function [cb_rtaudio_error], which logs a warning. *)
Inductive RtAudioErrorCallback : Type :=
| cb_rtaudio_error.

(** Sample-processing callbacks and their user data.  The unit defines
    none (the source passes [nullptr] for both). *)
Inductive RtAudioCallback : Type := .
Inductive UserData : Type := .

(** The argument list of [RtAudio::openStream], in the order of the call.
    [bufferFrames] is passed by address: the value here is the one the
    engine reads, the one it leaves behind is part of its result. *)
Record OpenStreamArgs : Type := mkOpenStreamArgs {
  os_outputParameters : option StreamParameters;
  os_inputParameters : option StreamParameters;
  os_format : RtAudioFormat;
  os_sampleRate : Z;
  os_bufferFrames : Z;
  os_callback : option RtAudioCallback;
  os_userData : option UserData;
  os_options : option StreamOptions;
  os_errorCallback : option RtAudioErrorCallback
}.

(** Modelled from the spec: the capability set of the native engine
    (section 6 of the specification): device enumeration, the stream life
    cycle and the two state queries.  [t] is the state of one [RtAudio]
    object.  Every call is taken to return; the queries do not change the
    object.  [getDeviceCount] returns an [unsigned int], which is the
    content of [getDeviceCount_range]. *)
Class Api (t : Type) : Type := {
  (** [RtAudio audio;]: a freshly constructed engine object *)
  construct : t;
  showWarnings : bool -> t -> t;
  getDeviceCount : t -> Z;
  getDeviceInfo : t -> Z -> DeviceInfo;
  isStreamOpen : t -> bool;
  isStreamRunning : t -> bool;
  (** returns the engine after the call and the value left in
      [*bufferFrames] *)
  openStream : OpenStreamArgs -> t -> t * Z;
  closeStream : t -> t;
  startStream : t -> t;
  stopStream : t -> t;
  getDeviceCount_range : forall a, 0 <= getDeviceCount a <= UINT_MAX
}.

End RtAudio.

(** ** The Qt declarations the unit uses *)

Module Qt.

(** Modelled from the spec: [QString] and its two conversions,
    [QString::fromStdString] and [QString::toStdString], are Qt's and
    outside this unit.  They enter as an interface: nothing is assumed of
    them, in particular not that one undoes the other. *)
Class StringApi (QString : Type) : Type := {
  fromStdString : string -> QString;
  toStdString : QString -> string
}.

End Qt.

(** ** Device *)

Module Device.
Import RtAudio.

(** [Device::Private]: the shared data of a [Device], a copy of the
    engine's device info. *)
Record Private : Type := mkPrivate { info : DeviceInfo }.

(** [Device]: a handle on a [Device::Private]. *)
Record Device : Type := mkDevice { d : Private }.

Definition List : Type := list Device.

Definition isValid (dev : Device) : bool := probed (info (d dev)).
Definition name {QString : Type} `{Qt.StringApi QString} (dev : Device)
  : QString :=
  Qt.fromStdString (RtAudio.name (info (d dev))).
Definition inputChannels (dev : Device) : Z :=
  RtAudio.inputChannels (info (d dev)).
Definition outputChannels (dev : Device) : Z :=
  RtAudio.outputChannels (info (d dev)).
Definition duplexChannels (dev : Device) : Z :=
  RtAudio.duplexChannels (info (d dev)).
Definition isOutput (dev : Device) : bool :=
  0 <? RtAudio.outputChannels (info (d dev)).
Definition isDefaultOutput (dev : Device) : bool :=
  RtAudio.isDefaultOutput (info (d dev)).
Definition isInput (dev : Device) : bool :=
  0 <? RtAudio.inputChannels (info (d dev)).
Definition isDefaultInput (dev : Device) : bool :=
  RtAudio.isDefaultOutput (info (d dev)).

Section Enumeration.
Context {t : Type} `{Api t}.

(** The loop of [availableDevices]:
    [for (unsigned int i = 0; i < audio.getDeviceCount(); i++)
       devices << new Device::Private(audio.getDeviceInfo(i));] *)
Equations? availableDevices_loop (audio : t) (i : Z) (devices : List)
  : List by wf (Z.to_nat (getDeviceCount audio - i)) lt :=
  availableDevices_loop audio i devices
    with Z_lt_dec i (getDeviceCount audio) => {
    | left _ :=
        availableDevices_loop audio (uint_incr i)
          (devices ++ [mkDevice (mkPrivate (getDeviceInfo audio i))]);
    | right _ := devices }.
Proof. loop_variant (getDeviceCount_range audio). Qed.

(** What one round of the loop appends for index [i]: a [Device] on a
    fresh [Device::Private] holding the engine's info for [i]. *)
Definition device_at (audio : t) (i : nat) : Device :=
  mkDevice (mkPrivate (getDeviceInfo audio (Z.of_nat i))).

Definition availableDevices : List :=
  let audio := construct in
  let devices := [] in
  availableDevices_loop audio 0 devices.

(** The loop of [find].  [deviceName] is the [std::string] that
    [deviceName.toStdString()] yields; the comparison is the one of
    [std::string]. *)
Equations? find_loop (audio : t) (name : string) (i : Z)
  : Z by wf (Z.to_nat (getDeviceCount audio - i)) lt :=
  find_loop audio name i with Z_lt_dec i (getDeviceCount audio) => {
    | left _
        with String.eqb name (RtAudio.name (getDeviceInfo audio i)) => {
        | true := to_int i;
        | false := find_loop audio name (uint_incr i) };
    | right _ := -1 }.
Proof. loop_variant (getDeviceCount_range audio). Qed.

Definition find (deviceName : string) : Z :=
  let audio := construct in
  let name := deviceName in
  find_loop audio name 0.

End Enumeration.
End Device.

(** ** StreamContext *)

Module StreamContext.
Import RtAudio.

(** The calls a [StreamContext::Private] makes on its engine object, in
    the order it makes them. *)
Inductive NativeCall : Type :=
| CallShowWarnings (b : bool)
| CallIsStreamOpen
| CallIsStreamRunning
| CallOpenStream (args : OpenStreamArgs)
| CallCloseStream
| CallStartStream
| CallStopStream.

Section Private.
Context {t : Type} `{Api t}.

(** [StreamContext::Private]: the engine object and the stream
    configuration.  The three pointers are [None] when null. *)
Record Private : Type := mkPrivate {
  audio : t;
  format : RtAudioFormat;
  sampleRate : Z;
  bufferFrames : Z;
  inParams : option StreamParameters;
  outParams : option StreamParameters;
  opts : option StreamOptions
}.

(** The constructor: the member initialisers, then
    [audio.showWarnings(true)] on the default-constructed engine. *)
Definition Private_new (inputParms outputParams : option StreamParameters)
    (options : option StreamOptions) : Private :=
  {| audio := showWarnings true construct;
     format := RTAUDIO_SINT16;
     sampleRate := 44100;
     bufferFrames := 256;
     inParams := inputParms;
     outParams := outputParams;
     opts := options |}.

Definition set_audio (a : t) (p : Private) : Private :=
  {| audio := a;
     format := format p;
     sampleRate := sampleRate p;
     bufferFrames := bufferFrames p;
     inParams := inParams p;
     outParams := outParams p;
     opts := opts p |}.

Definition set_bufferFrames (n : Z) (p : Private) : Private :=
  {| audio := audio p;
     format := format p;
     sampleRate := sampleRate p;
     bufferFrames := n;
     inParams := inParams p;
     outParams := outParams p;
     opts := opts p |}.

(** A member function of [Private]: from the object before the call to
    the returned value, the object after the call and the engine calls
    made, oldest first. *)
Definition Method (A : Type) : Type :=
  Private -> A * Private * list NativeCall.

Definition ret {A : Type} (a : A) : Method A :=
  fun p => (a, p, []).

Definition bind {A B : Type} (m : Method A) (k : A -> Method B)
  : Method B :=
  fun p =>
    let '(a, p1, calls1) := m p in
    let '(b, p2, calls2) := k a p1 in
    (b, p2, calls1 ++ calls2).

Definition result {A : Type} (r : A * Private * list NativeCall) : A :=
  fst (fst r).
Definition after {A : Type} (r : A * Private * list NativeCall)
  : Private := snd (fst r).
Definition calls {A : Type} (r : A * Private * list NativeCall)
  : list NativeCall := snd r.

(** [audio.isStreamOpen()] *)
Definition audio_isStreamOpen : Method bool :=
  fun p => (isStreamOpen (audio p), p, [CallIsStreamOpen]).

(** [audio.isStreamRunning()] *)
Definition audio_isStreamRunning : Method bool :=
  fun p => (isStreamRunning (audio p), p, [CallIsStreamRunning]).

(** The arguments [open] hands to the engine:
    [(outParams, inParams, format, sampleRate, &bufferFrames, nullptr,
      nullptr, opts, &cb_rtaudio_error)]. *)
Definition open_args (p : Private) : OpenStreamArgs :=
  {| os_outputParameters := outParams p;
     os_inputParameters := inParams p;
     os_format := format p;
     os_sampleRate := sampleRate p;
     os_bufferFrames := bufferFrames p;
     os_callback := None;
     os_userData := None;
     os_options := opts p;
     os_errorCallback := Some cb_rtaudio_error |}.

(** [audio.openStream(...)]: the engine moves on and leaves its choice
    in [bufferFrames]. *)
Definition audio_openStream : Method unit :=
  fun p =>
    let args := open_args p in
    let '(a, frames) := openStream args (audio p) in
    (tt, set_bufferFrames frames (set_audio a p), [CallOpenStream args]).

(** [audio.closeStream()] *)
Definition audio_closeStream : Method unit :=
  fun p => (tt, set_audio (closeStream (audio p)) p, [CallCloseStream]).

(** [audio.startStream()] *)
Definition audio_startStream : Method unit :=
  fun p => (tt, set_audio (startStream (audio p)) p, [CallStartStream]).

(** [audio.stopStream()] *)
Definition audio_stopStream : Method unit :=
  fun p => (tt, set_audio (stopStream (audio p)) p, [CallStopStream]).

End Private.

Arguments Private t : clear implicits.
Arguments Method t A : clear implicits.

Declare Scope method_scope.
Delimit Scope method_scope with method.
Notation "x <- m ;; k" := (bind m (fun x => k))
  (at level 100, m at next level, right associativity) : method_scope.
Notation "m ;; k" := (bind m (fun _ => k))
  (at level 100, right associativity) : method_scope.

Section Lifecycle.
Context {t : Type} `{Api t}.
Local Open Scope method_scope.

Definition open : Method t bool :=
  isOpen <- audio_isStreamOpen ;;
  if isOpen then ret true
  else
    audio_openStream ;;
    audio_isStreamOpen.

Definition close : Method t unit :=
  isOpen <- audio_isStreamOpen ;;
  if negb isOpen then ret tt
  else audio_closeStream.

Definition start : Method t bool :=
  opened <- open ;;
  if negb opened then ret false
  else
    audio_startStream ;;
    audio_isStreamRunning.

Definition stop : Method t bool :=
  running <- audio_isStreamRunning ;;
  if negb running then ret true
  else
    audio_stopStream ;;
    running' <- audio_isStreamRunning ;;
    ret (negb running').




End Lifecycle.

(** [StreamContext]: a handle on a [StreamContext::Private]; [d] is
    [None] for the null object. *)
Record StreamContext (t : Type) `{Api t} : Type :=
  mkStreamContext { d : option (Private t) }.
Arguments mkStreamContext {t _} d.
Arguments d {t _} s.

Section Handle.
Context {t : Type} `{Api t}.

(** The public members go through [d->]; on the null object the source
    dereferences a null pointer, which has no defined result: [None]. *)
Definition StreamContext_open (ctx : StreamContext t)
  : option (bool * StreamContext t * list NativeCall) :=
  match d ctx with
  | Some p =>
      let '(r, p', cs) := open p in Some (r, mkStreamContext (Some p'), cs)
  | None => None
  end.

Definition StreamContext_close (ctx : StreamContext t)
  : option (unit * StreamContext t * list NativeCall) :=
  match d ctx with
  | Some p =>
      let '(r, p', cs) := close p in Some (r, mkStreamContext (Some p'), cs)
  | None => None
  end.

Definition isOpen (ctx : StreamContext t) : option bool :=
  match d ctx with
  | Some p => Some (isStreamOpen (audio p))
  | None => None
  end.

Definition isRunning (ctx : StreamContext t) : option bool :=
  match d ctx with
  | Some p => Some (isStreamRunning (audio p))
  | None => None
  end.

End Handle.
End StreamContext.

(** ** The factory *)

Section Create.
Import RtAudio StreamContext.
Context {t : Type} `{Api t}.

(** [StreamContext create(int inputDevice, int outputDevice)] *)
Definition create (inputDevice outputDevice : Z) : StreamContext t :=
  if (inputDevice <? 0) && (outputDevice <? 0) then mkStreamContext None
  else
    let audio := construct in
    let inParams :=
      if 0 <=? inputDevice then
        let devId := to_uint inputDevice in
        let info := getDeviceInfo audio devId in
        Some {| deviceId := devId;
                nChannels := if 1 <? inputChannels info then 2 else 1;
                firstChannel := 0 |}
      else None in
    let outParams :=
      if 0 <=? outputDevice then
        let devId := to_uint outputDevice in
        let info := getDeviceInfo audio devId in
        Some {| deviceId := devId;
                nChannels := if 1 <? inputChannels info then 2 else 1;
                firstChannel := 0 |}
      else None in
    mkStreamContext (Some (Private_new inParams outParams None)).

End Create.

(** ** Engines to run the unit against *)

(** A small engine with four devices, two of which share a name.  A stream
    opens when at least one direction is requested; the engine's period is
    512 frames, which it reports back through [bufferFrames]. *)
Module TestEngine.
Import RtAudio.

Record State : Type := mkState {
  stream_open : bool;
  stream_running : bool
}.

Definition unprobed : DeviceInfo :=
  mkDeviceInfo false EmptyString 0 0 0 false false.

Definition devices : list DeviceInfo :=
  [ mkDeviceInfo true "Speakers"%string 2 0 0 true false;
    mkDeviceInfo true "Microphone"%string 0 1 0 false true;
    mkDeviceInfo true "USB Audio"%string 8 8 8 false false;
    mkDeviceInfo true "USB Audio"%string 2 2 2 false false ].

Definition open_stream (args : OpenStreamArgs) (s : State) : State * Z :=
  match os_outputParameters args, os_inputParameters args with
  | None, None => (s, os_bufferFrames args)
  | _, _ => (mkState true false, Z.max 512 (os_bufferFrames args))
  end.

Definition start_stream (s : State) : State :=
  if stream_open s then mkState true true else s.

Definition stop_stream (s : State) : State :=
  mkState (stream_open s) false.

#[global] Program Instance api : Api State := {|
  construct := mkState false false;
  showWarnings := fun _ s => s;
  getDeviceCount := fun _ => Z.of_nat (List.length devices);
  getDeviceInfo := fun _ i => nth (Z.to_nat i) devices unprobed;
  isStreamOpen := stream_open;
  isStreamRunning := stream_running;
  openStream := open_stream;
  closeStream := fun _ => mkState false false;
  startStream := start_stream;
  stopStream := stop_stream |}.
Next Obligation. unfold UINT_MAX; simpl; lia. Qed.


(** Two contexts on this engine: one for playback on device 0, fresh from
    the constructor, and the same one after a first [open()]. *)
Definition playback : StreamContext.Private State :=
  StreamContext.Private_new None (Some (mkStreamParameters 0 2 0)) None.

Definition playback_opened : StreamContext.Private State :=
  StreamContext.after (StreamContext.open playback).

Definition playback_running : StreamContext.Private State :=
  StreamContext.after (StreamContext.start playback).

End TestEngine.

(** A stand-in for [QString] that is good for ASCII names: a string of
    16-bit code units.  Bytes outside ASCII become the replacement
    character on the way in, code units outside ASCII a question mark on
    the way out, so the two conversions do not undo each other. *)
Module TestQString.

Definition QString : Type := list N.

Definition unit_of_byte (c : Ascii.ascii) : N :=
  if (Ascii.N_of_ascii c <? 128)%N then Ascii.N_of_ascii c else 65533%N.

Definition byte_of_unit (u : N) : Ascii.ascii :=
  if (u <? 128)%N then Ascii.ascii_of_N u else Ascii.ascii_of_N 63.

#[global] Instance api : Qt.StringApi QString := {|
  Qt.fromStdString := fun s => map unit_of_byte (list_ascii_of_string s);
  Qt.toStdString := fun q => string_of_list_ascii (map byte_of_unit q) |}.

End TestQString.

(** An engine that reports 2^31 + 1 devices; only the last one is called
    [last].  It has no stream to speak of. *)
Module BigEngine.
Import RtAudio.

Definition device (i : Z) : DeviceInfo :=
  if i =? 2147483648
  then mkDeviceInfo true "last"%string 2 2 2 false false
  else mkDeviceInfo true "other"%string 2 2 2 false false.

#[global] Program Instance api : Api unit := {|
  construct := tt;
  showWarnings := fun _ s => s;
  getDeviceCount := fun _ => 2147483649;
  getDeviceInfo := fun _ i => device i;
  isStreamOpen := fun _ => false;
  isStreamRunning := fun _ => false;
  openStream := fun args s => (s, os_bufferFrames args);
  closeStream := fun s => s;
  startStream := fun s => s;
  stopStream := fun s => s |}.
Next Obligation. unfold UINT_MAX; lia. Qed.

End BigEngine.

(** An engine on a machine without audio hardware: it enumerates no
    device and never gets a stream open. *)
Module NoDeviceEngine.
Import RtAudio.

Inductive State : Type := Idle.

#[global] Program Instance api : Api State | 100 := {|
  construct := Idle;
  showWarnings := fun _ s => s;
  getDeviceCount := fun _ => 0;
  getDeviceInfo := fun _ _ => mkDeviceInfo false EmptyString 0 0 0 false false;
  isStreamOpen := fun _ => false;
  isStreamRunning := fun _ => false;
  openStream := fun args s => (s, os_bufferFrames args);
  closeStream := fun s => s;
  startStream := fun s => s;
  stopStream := fun s => s |}.
Next Obligation. unfold UINT_MAX; lia. Qed.

End NoDeviceEngine.

(** * Properties *)

(** ** Machine integers *)

Lemma to_uint_small (z : Z) : 0 <= z <= UINT_MAX -> to_uint z = z.
Proof. unfold to_uint, UINT_MAX. intros Hz. apply Z.mod_small. lia. Qed.

Lemma to_uint_range (z : Z) : 0 <= to_uint z <= UINT_MAX.
Proof.
  unfold to_uint, UINT_MAX.
  pose proof (Z.mod_pos_bound z 4294967296 ltac:(lia)). lia.
Qed.

Lemma to_int_small (z : Z) : 0 <= z <= INT_MAX -> to_int z = z.
Proof.
  unfold to_int, INT_MAX. intros Hz.
  rewrite Z.mod_small by lia.
  destruct (z <? 2147483648) eqn:E; [reflexivity | apply Z.ltb_ge in E; lia].
Qed.

Lemma to_int_large (z : Z) :
  INT_MAX < z <= UINT_MAX -> to_int z = z - 4294967296.
Proof.
  unfold to_int, INT_MAX, UINT_MAX. intros Hz.
  rewrite Z.mod_small by lia.
  destruct (z <? 2147483648) eqn:E; [apply Z.ltb_lt in E; lia | reflexivity].
Qed.


(** ** Device enumeration and lookup *)

Section DeviceProperties.
Import RtAudio Device.
Context {t : Type} `{Api t}.

(** One round of [availableDevices_loop]. *)
Lemma availableDevices_loop_step (audio : t) (i : Z) (devices : List) :
  i < getDeviceCount audio ->
  availableDevices_loop audio i devices =
  availableDevices_loop audio (uint_incr i)
    (devices ++ [mkDevice (Device.mkPrivate (getDeviceInfo audio i))]).
Proof.
  intros Hlt. rewrite availableDevices_loop_equation_1.
  destruct (Z_lt_dec i (getDeviceCount audio)) as [Hi | Hi]; [| contradiction].
  reflexivity.
Qed.

Lemma availableDevices_loop_exit (audio : t) (i : Z) (devices : List) :
  getDeviceCount audio <= i ->
  availableDevices_loop audio i devices = devices.
Proof.
  intros Hge. rewrite availableDevices_loop_equation_1.
  destruct (Z_lt_dec i (getDeviceCount audio)) as [Hi | Hi]; [lia |].
  reflexivity.
Qed.

Lemma uint_incr_below (audio : t) (i : Z) :
  0 <= i < getDeviceCount audio -> uint_incr i = i + 1.
Proof.
  intros Hi. pose proof (getDeviceCount_range audio) as Hc.
  unfold uint_incr. apply to_uint_small. lia.
Qed.

Lemma availableDevices_loop_spec (audio : t) (n : nat) :
  forall (i : nat) (devices : List),
    Z.of_nat i + Z.of_nat n = getDeviceCount audio ->
    availableDevices_loop audio (Z.of_nat i) devices =
    devices ++ map (device_at audio) (seq i n).
Proof.
  induction n as [| n IH]; intros i devices Hsum.
  - rewrite availableDevices_loop_exit by lia.
    simpl. now rewrite app_nil_r.
  - rewrite availableDevices_loop_step by lia.
    rewrite (uint_incr_below audio) by lia.
    replace (Z.of_nat i + 1) with (Z.of_nat (S i)) by lia.
    rewrite IH by lia.
    simpl. rewrite <- app_assoc. reflexivity.
Qed.

(** C7. [availableDevices()] returns one [Device] per index the engine
    reports, in index order 0 .. count-1: the list has [getDeviceCount]
    entries and the entry at position [i] wraps [getDeviceInfo(i)]. *)
Theorem availableDevices_enumerates_engine :
  let audio : t := construct in
  availableDevices =
    map (device_at audio) (seq 0 (Z.to_nat (getDeviceCount audio)))
  /\ Z.of_nat (List.length availableDevices) = getDeviceCount audio
  /\ forall i : Z,
       0 <= i < getDeviceCount audio ->
       exists dev,
         nth_error availableDevices (Z.to_nat i) = Some dev
         /\ info (d dev) = getDeviceInfo audio i.
Proof.
  intros audio.
  pose proof (getDeviceCount_range audio) as Hc.
  assert (Heq : availableDevices =
            map (device_at audio) (seq 0 (Z.to_nat (getDeviceCount audio)))).
  { unfold availableDevices. fold audio.
    change 0 with (Z.of_nat 0).
    rewrite (availableDevices_loop_spec audio (Z.to_nat (getDeviceCount audio)))
      by lia.
    reflexivity. }
  split; [exact Heq |]. rewrite Heq. split.
  - rewrite length_map, length_seq. lia.
  - intros i Hi.
    exists (device_at audio (Z.to_nat i)). split.
    + rewrite nth_error_map.
      rewrite nth_error_seq.
      destruct (Nat.ltb_spec (Z.to_nat i) (Z.to_nat (getDeviceCount audio)));
        [reflexivity | lia].
    + unfold device_at. simpl. rewrite Z2Nat.id by lia. reflexivity.
Qed.

(** One round of [find_loop], by the outcome of the two tests. *)
Lemma find_loop_hit (audio : t) (name : string) (i : Z) :
  i < getDeviceCount audio ->
  RtAudio.name (getDeviceInfo audio i) = name ->
  find_loop audio name i = to_int i.
Proof.
  intros Hlt Hname. rewrite find_loop_equation_1.
  destruct (Z_lt_dec i (getDeviceCount audio)) as [Hi | Hi]; [| contradiction].
  simpl. rewrite Hname, String.eqb_refl. reflexivity.
Qed.

Lemma find_loop_miss (audio : t) (name : string) (i : Z) :
  i < getDeviceCount audio ->
  RtAudio.name (getDeviceInfo audio i) <> name ->
  find_loop audio name i = find_loop audio name (uint_incr i).
Proof.
  intros Hlt Hname. rewrite find_loop_equation_1.
  destruct (Z_lt_dec i (getDeviceCount audio)) as [Hi | Hi]; [| contradiction].
  simpl.
  destruct (String.eqb_spec name (RtAudio.name (getDeviceInfo audio i)))
    as [E | E]; [congruence | reflexivity].
Qed.

Lemma find_loop_exit (audio : t) (name : string) (i : Z) :
  getDeviceCount audio <= i ->
  find_loop audio name i = -1.
Proof.
  intros Hge. rewrite find_loop_equation_1.
  destruct (Z_lt_dec i (getDeviceCount audio)) as [Hi | Hi]; [lia |].
  reflexivity.
Qed.

(** The loop started at [i] stops at the first index [j >= i] that
    carries the name and returns [j] converted to [int]. *)
Lemma find_loop_first_match (audio : t) (name : string) (j : Z) :
  j < getDeviceCount audio ->
  RtAudio.name (getDeviceInfo audio j) = name ->
  forall (n : nat) (i : Z),
    0 <= i ->
    i + Z.of_nat n = j ->
    (forall k, i <= k < j -> RtAudio.name (getDeviceInfo audio k) <> name) ->
    find_loop audio name i = to_int j.
Proof.
  intros Hj Hname.
  induction n as [| n IH]; intros i Hi Hsum Hbefore.
  - replace i with j by lia. now apply find_loop_hit.
  - rewrite find_loop_miss; [| lia | apply Hbefore; lia].
    rewrite (uint_incr_below audio) by lia.
    apply IH; [lia | lia |].
    intros k Hk. apply Hbefore. lia.
Qed.

(** With no device of that name from [i] on, the loop runs to the end
    and the function returns -1. *)
Lemma find_loop_no_match (audio : t) (name : string) :
  forall (n : nat) (i : Z),
    0 <= i ->
    i + Z.of_nat n = getDeviceCount audio ->
    (forall k, i <= k < getDeviceCount audio ->
               RtAudio.name (getDeviceInfo audio k) <> name) ->
    find_loop audio name i = -1.
Proof.
  induction n as [| n IH]; intros i Hi Hsum Hnone.
  - apply find_loop_exit. lia.
  - rewrite find_loop_miss; [| lia | apply Hnone; lia].
    rewrite (uint_incr_below audio) by lia.
    apply IH; [lia | lia |].
    intros k Hk. apply Hnone. lia.
Qed.

(** [find] returns the first matching index as the conversion to [int]
    delivers it. *)
Lemma find_first_match_to_int (deviceName : string) (j : Z) :
  0 <= j < getDeviceCount (construct : t) ->
  RtAudio.name (getDeviceInfo (construct : t) j) = deviceName ->
  (forall k, 0 <= k < j ->
             RtAudio.name (getDeviceInfo (construct : t) k) <> deviceName) ->
  find deviceName = to_int j.
Proof.
  intros Hj Hname Hfirst. unfold find. cbv zeta.
  apply (find_loop_first_match construct deviceName j
           (proj2 Hj) Hname (Z.to_nat j) 0); [lia | lia | exact Hfirst].
Qed.

(** C6, as amended.  [find(deviceName)] returns the index of the first
    enumerated device whose name equals [deviceName] (the first match wins
    among duplicates) whenever that index is representable as an [int],
    that is, at most [INT_MAX]; it returns -1 when no enumerated device
    has that name. *)
Theorem find_returns_first_match (deviceName : string) :
  let audio : t := construct in
  (forall j : Z,
      0 <= j < getDeviceCount audio ->
      j <= INT_MAX ->
      RtAudio.name (getDeviceInfo audio j) = deviceName ->
      (forall k, 0 <= k < j ->
                 RtAudio.name (getDeviceInfo audio k) <> deviceName) ->
      find deviceName = j)
  /\ ((forall k, 0 <= k < getDeviceCount audio ->
                 RtAudio.name (getDeviceInfo audio k) <> deviceName) ->
      find deviceName = -1).
Proof.
  intros audio. pose proof (getDeviceCount_range audio) as Hc. split.
  - intros j Hj Hint Hname Hfirst.
    rewrite (find_first_match_to_int deviceName j Hj Hname Hfirst).
    apply to_int_small. lia.
  - intros Hnone. unfold find. fold audio.
    apply (find_loop_no_match audio deviceName
             (Z.to_nat (getDeviceCount audio)) 0); [lia | lia | exact Hnone].
Qed.

End DeviceProperties.

(** On the test engine, [find] picks the first of the two devices called
    [USB Audio] and reports -1 for a name no device has. *)
Lemma find_returns_first_match_witness :
  Device.find (t := TestEngine.State) "USB Audio" = 2
  /\ Device.find (t := TestEngine.State) "Headset" = -1.
Proof.
  split.
  - apply (find_returns_first_match (t := TestEngine.State) "USB Audio").
    + simpl. lia.
    + unfold INT_MAX. lia.
    + reflexivity.
    + intros k Hk.
      assert (Hcases : k = 0 \/ k = 1) by lia.
      destruct Hcases; subst k; discriminate.
  - apply (find_returns_first_match (t := TestEngine.State) "Headset").
    intros k Hk. simpl in Hk.
    assert (Hcases : k = 0 \/ k = 1 \/ k = 2 \/ k = 3) by lia.
    destruct Hcases as [-> | [-> | [-> | ->]]]; discriminate.
Defined.

(** C6, as stated, fails where the first match lies beyond [INT_MAX]: the
    engine below enumerates 2^31 + 1 devices and only the one at index
    2147483648 is called [last]; [find] returns -2147483648, which is not
    that index. *)
Lemma find_wraps_beyond_INT_MAX :
  2147483648 < RtAudio.getDeviceCount (RtAudio.construct (t := unit))
  /\ RtAudio.name (RtAudio.getDeviceInfo (RtAudio.construct (t := unit))
                     2147483648) = "last"%string
  /\ (forall k, 0 <= k < 2147483648 ->
       RtAudio.name (RtAudio.getDeviceInfo (RtAudio.construct (t := unit)) k)
       <> "last"%string)
  /\ Device.find (t := unit) "last" = -2147483648
  /\ Device.find (t := unit) "last" <> 2147483648.
Proof.
  assert (Hbefore : forall k, 0 <= k < 2147483648 ->
            RtAudio.name (RtAudio.getDeviceInfo (RtAudio.construct (t := unit)) k)
            <> "last"%string).
  { intros k Hk. simpl. unfold BigEngine.device.
    destruct (Z.eqb_spec k 2147483648) as [E | E]; [lia | discriminate]. }
  assert (Hcount : 2147483648 < RtAudio.getDeviceCount (RtAudio.construct (t := unit)))
    by (simpl; lia).
  assert (Hfind : Device.find (t := unit) "last" = -2147483648).
  { rewrite (find_first_match_to_int (t := unit) "last" 2147483648);
      [reflexivity | split; [lia | exact Hcount] | reflexivity | exact Hbefore]. }
  split; [exact Hcount |].
  split; [reflexivity |].
  split; [exact Hbefore |].
  split; [exact Hfind |].
  rewrite Hfind. discriminate.
Qed.

(** C10. [isDefaultInput()] and [isDefaultOutput()] return the same value
    for every device: both read the default-output flag of the device info,
    so [isDefaultInput()] is not the device's default-input flag. *)
Theorem isDefaultInput_reads_default_output_flag :
  (forall dev : Device.Device,
      Device.isDefaultInput dev = Device.isDefaultOutput dev)
  /\ (forall dev : Device.Device,
         Device.isDefaultInput dev
         = RtAudio.isDefaultOutput (Device.info (Device.d dev)))
  /\ (exists dev : Device.Device,
         Device.isDefaultInput dev
         <> RtAudio.isDefaultInput (Device.info (Device.d dev))).
Proof.
  split; [reflexivity |]. split; [reflexivity |].
  exists (Device.device_at (t := TestEngine.State) RtAudio.construct 1).
  vm_compute. discriminate.
Qed.

(** ** The stream life cycle *)

(** Read off the components of a method's outcome. *)
Ltac outcome :=
  unfold StreamContext.result, StreamContext.after, StreamContext.calls;
  simpl.

Section LifecycleProperties.
Import RtAudio StreamContext.
Context {t : Type} `{Api t}.

(** What the engine makes of the [openStream] call that [open] issues on
    [p]: the engine object afterwards, and the object [p] becomes. *)
Lemma open_when_closed (p : Private t) :
  isStreamOpen (audio p) = false ->
  open p =
    (isStreamOpen (fst (openStream (open_args p) (audio p))),
     set_bufferFrames (snd (openStream (open_args p) (audio p)))
       (set_audio (fst (openStream (open_args p) (audio p))) p),
     [CallIsStreamOpen; CallOpenStream (open_args p); CallIsStreamOpen]).
Proof.
  intros Hclosed. unfold open, bind, audio_isStreamOpen, audio_openStream.
  rewrite Hclosed.
  destruct (openStream (open_args p) (audio p)) as [a frames].
  reflexivity.
Qed.

Lemma open_when_open (p : Private t) :
  isStreamOpen (audio p) = true ->
  open p = (true, p, [CallIsStreamOpen]).
Proof.
  intros Hopen. unfold open, bind, audio_isStreamOpen, ret.
  rewrite Hopen. reflexivity.
Qed.

(** [open] answers with the engine's view of the object it leaves. *)
Lemma open_result_is_engine_state (p : Private t) :
  result (open p) = isStreamOpen (audio (after (open p))).
Proof.
  destruct (isStreamOpen (audio p)) eqn:E.
  - rewrite open_when_open by exact E. outcome. now rewrite E.
  - rewrite open_when_closed by exact E. outcome. reflexivity.
Qed.

(** [open] leaves the format, the rate, the parameters and the options
    alone; of the configuration only [bufferFrames] is the engine's to
    change. *)
Lemma open_frame (p : Private t) :
  format (after (open p)) = format p
  /\ sampleRate (after (open p)) = sampleRate p
  /\ inParams (after (open p)) = inParams p
  /\ outParams (after (open p)) = outParams p
  /\ opts (after (open p)) = opts p.
Proof.
  destruct (isStreamOpen (audio p)) eqn:E.
  - rewrite open_when_open by exact E. outcome. tauto.
  - rewrite open_when_closed by exact E. outcome. tauto.
Qed.



(** C5. [stop()] on a stream the engine reports not running returns true
    and does not call the engine's [stopStream]; the object is unchanged.
    Otherwise it calls [stopStream] once and returns whether the engine
    then reports the stream no longer running. *)
Theorem stop_only_when_running (p : Private t) :
  (isStreamRunning (audio p) = false ->
     stop p = (true, p, [CallIsStreamRunning]))
  /\ (isStreamRunning (audio p) = true ->
      stop p =
        (negb (isStreamRunning (stopStream (audio p))),
         set_audio (stopStream (audio p)) p,
         [CallIsStreamRunning; CallStopStream; CallIsStreamRunning])).
Proof.
  unfold stop, bind, audio_isStreamRunning, audio_stopStream, ret.
  split; intros E; rewrite E; reflexivity.
Qed.

(** [start] in terms of the [open] it begins with. *)
Lemma start_after_open (p : Private t) :
  start p =
    if result (open p)
    then (isStreamRunning (startStream (audio (after (open p)))),
          set_audio (startStream (audio (after (open p)))) (after (open p)),
          calls (open p) ++ [CallStartStream; CallIsStreamRunning])
    else (false, after (open p), calls (open p)).
Proof.
  unfold start, bind.
  destruct (open p) as [[r p'] cs]. simpl.
  destruct r; simpl; [reflexivity |].
  now rewrite app_nil_r.
Qed.

(** C4. [start()] on a context whose stream is not open first opens it:
    the engine's [openStream] is called before anything else is asked of
    the stream.  If the open fails, [start()] returns false and
    [startStream] is not called; otherwise [startStream] is called once
    and [start()] returns whether the engine reports the stream
    running. *)
Theorem start_opens_then_starts (p : Private t) :
  isStreamOpen (audio p) = false ->
  calls (open p) =
    [CallIsStreamOpen; CallOpenStream (open_args p); CallIsStreamOpen]
  /\ (result (open p) = false ->
      start p = (false, after (open p), calls (open p))
      /\ ~ In CallStartStream (calls (start p)))
  /\ (result (open p) = true ->
      start p =
        (isStreamRunning (startStream (audio (after (open p)))),
         set_audio (startStream (audio (after (open p)))) (after (open p)),
         calls (open p) ++ [CallStartStream; CallIsStreamRunning])).
Proof.
  intros Hclosed.
  assert (Hcalls : calls (open p) =
            [CallIsStreamOpen; CallOpenStream (open_args p); CallIsStreamOpen])
    by (rewrite open_when_closed by exact Hclosed; outcome; reflexivity).
  split; [exact Hcalls |]. split.
  - intros Hfail. rewrite start_after_open, Hfail. split; [reflexivity |].
    unfold calls at 1. simpl. fold (calls (open p)). rewrite Hcalls.
    simpl. intros [F | [F | [F | []]]]; discriminate.
  - intros Hok. rewrite start_after_open, Hok. reflexivity.
Qed.

End LifecycleProperties.



(** On the test engine: [stop()] before any [start()], and after one. *)
Lemma stop_only_when_running_witness :
  (RtAudio.isStreamRunning (StreamContext.audio TestEngine.playback) = false
   /\ StreamContext.stop TestEngine.playback
      = (true, TestEngine.playback, [StreamContext.CallIsStreamRunning]))
  /\ (RtAudio.isStreamRunning
        (StreamContext.audio TestEngine.playback_running) = true
      /\ StreamContext.result (StreamContext.stop TestEngine.playback_running)
         = true).
Proof.
  split; (split; [reflexivity |]).
  - apply (proj1 (stop_only_when_running TestEngine.playback)). reflexivity.
  - rewrite (proj2 (stop_only_when_running TestEngine.playback_running))
      by reflexivity.
    reflexivity.
Defined.

(** On the test engine: [start()] on the fresh playback context opens the
    stream, starts it and reports it running. *)
Lemma start_opens_then_starts_witness :
  RtAudio.isStreamOpen (StreamContext.audio TestEngine.playback) = false
  /\ StreamContext.calls (StreamContext.start TestEngine.playback)
     = [StreamContext.CallIsStreamOpen;
        StreamContext.CallOpenStream
          (StreamContext.open_args TestEngine.playback);
        StreamContext.CallIsStreamOpen;
        StreamContext.CallStartStream;
        StreamContext.CallIsStreamRunning]
  /\ StreamContext.result (StreamContext.start TestEngine.playback) = true.
Proof.
  split; [reflexivity |].
  destruct (start_opens_then_starts TestEngine.playback)
    as [Hcalls [_ Hok]]; [reflexivity |].
  rewrite Hok by reflexivity. outcome. split; reflexivity.
Defined.

(** ** The factory *)

Section CreateProperties.
Import RtAudio StreamContext.
Context {t : Type} `{Api t}.

(** The four sign combinations of the two indices. *)
Ltac create_cases i o :=
  unfold create;
  destruct (Z.ltb_spec i 0), (Z.ltb_spec o 0),
           (Z.leb_spec 0 i), (Z.leb_spec 0 o);
  simpl; try lia.


(** The channel count of either direction is read from the
    [inputChannels] field of the selected device. *)
Lemma create_channel_counts (inputDevice outputDevice : Z) (p : Private t) :
  d (create inputDevice outputDevice) = Some p ->
  (forall ps, inParams p = Some ps ->
     nChannels ps =
     if 1 <? inputChannels (getDeviceInfo construct (to_uint inputDevice))
     then 2 else 1)
  /\ (forall ps, outParams p = Some ps ->
     nChannels ps =
     if 1 <? inputChannels (getDeviceInfo construct (to_uint outputDevice))
     then 2 else 1).
Proof.
  create_cases inputDevice outputDevice; intros E;
    try discriminate; injection E as <-; simpl;
    split; intros ps Eps; try discriminate;
    injection Eps as <-; reflexivity.
Qed.

(** Either direction gets one or two channels, never more. *)
Lemma create_channels_mono_or_stereo
    (inputDevice outputDevice : Z) (p : Private t) (ps : StreamParameters) :
  d (create inputDevice outputDevice) = Some p ->
  inParams p = Some ps \/ outParams p = Some ps ->
  nChannels ps = 1 \/ nChannels ps = 2.
Proof.
  intros Hp Hdir.
  destruct (create_channel_counts inputDevice outputDevice p Hp) as [Hin Hout].
  destruct Hdir as [E | E]; [rewrite (Hin ps E) | rewrite (Hout ps E)];
    match goal with |- context [if ?b then _ else _] => destruct b end; auto.
Qed.

(** C2. [create] returns the null context exactly when both indices are
    negative.  With an input index only, the context carries input
    parameters for that device and no output parameters; with an output
    index only, the other way round.  So a context that is not null
    refers to at least one device. *)
Theorem create_null_iff_both_negative (inputDevice outputDevice : Z) :
  (d (create inputDevice outputDevice) = None
     <-> inputDevice < 0 /\ outputDevice < 0)
  /\ (0 <= inputDevice -> outputDevice < 0 ->
      exists p ps,
        d (create inputDevice outputDevice) = Some p
        /\ inParams p = Some ps
        /\ deviceId ps = to_uint inputDevice
        /\ outParams p = None)
  /\ (inputDevice < 0 -> 0 <= outputDevice ->
      exists p ps,
        d (create inputDevice outputDevice) = Some p
        /\ inParams p = None
        /\ outParams p = Some ps
        /\ deviceId ps = to_uint outputDevice)
  /\ (forall p,
        d (create inputDevice outputDevice) = Some p ->
        inParams p <> None \/ outParams p <> None).
Proof.
  split; [| split; [| split]].
  - create_cases inputDevice outputDevice;
      (split; [intros E; try discriminate; auto | intros [? ?]; auto; lia]).
  - intros Hi Ho. create_cases inputDevice outputDevice.
    eexists. eexists. repeat split.
  - intros Hi Ho. create_cases inputDevice outputDevice.
    eexists. eexists. repeat split.
  - intros p. create_cases inputDevice outputDevice; intros E;
      try discriminate; injection E as <-; simpl;
      ((left; discriminate) || (right; discriminate)).
Qed.

End CreateProperties.

(** On the test engine: no context for two negative indices; for the
    microphone alone, a context with input parameters only. *)
Lemma create_null_iff_both_negative_witness :
  StreamContext.d (create (t := TestEngine.State) (-1) (-1)) = None
  /\ exists p ps,
       StreamContext.d (create (t := TestEngine.State) 1 (-1)) = Some p
       /\ StreamContext.inParams p = Some ps
       /\ RtAudio.deviceId ps = to_uint 1
       /\ StreamContext.outParams p = None.
Proof.
  split.
  - apply (proj1 (create_null_iff_both_negative (-1) (-1))). lia.
  - apply (proj1 (proj2 (create_null_iff_both_negative 1 (-1)))); lia.
Defined.

(** C1, at the input where the code departs from it.  Device 0 of the test
    engine reports two output channels and no input channel.
    [create(-1, 0)] selects it for output and gives the output parameters
    one channel, where the claim has two: the output branch of [create]
    reads [inputChannels], as the input branch does. *)
Theorem create_output_channels_read_input_field :
  RtAudio.outputChannels
    (RtAudio.getDeviceInfo (RtAudio.construct (t := TestEngine.State)) 0) = 2
  /\ RtAudio.inputChannels
       (RtAudio.getDeviceInfo (RtAudio.construct (t := TestEngine.State)) 0) = 0
  /\ exists p ps,
       StreamContext.d (create (t := TestEngine.State) (-1) 0) = Some p
       /\ StreamContext.outParams p = Some ps
       /\ RtAudio.nChannels ps = 1.
Proof.
  split; [reflexivity |]. split; [reflexivity |].
  eexists. eexists. repeat split.
Qed.


(** * Further properties *)

(** ** Lookup, enumeration and the factory together *)

Lemma to_int_nonneg (z : Z) :
  0 <= z <= UINT_MAX -> 0 <= to_int z -> to_int z = z /\ z <= INT_MAX.
Proof.
  intros Hz Hpos.
  destruct (Z_le_gt_dec z INT_MAX) as [Hs | Hl].
  - split; [apply to_int_small; lia | exact Hs].
  - rewrite to_int_large in Hpos by lia. unfold UINT_MAX in Hz. lia.
Qed.

Lemma to_int_not_sentinel (z : Z) :
  0 <= z < UINT_MAX -> to_int z <> -1.
Proof.
  intros Hz.
  destruct (Z_le_gt_dec z INT_MAX) as [Hs | Hl].
  - rewrite to_int_small by lia. lia.
  - rewrite to_int_large by lia. unfold UINT_MAX in Hz. lia.
Qed.

Section LookupProperties.
Import RtAudio Device.
Context {t : Type} `{Api t}.

(** The loop started at [i] either stops at the first match from [i] on,
    or finds none and runs to the end. *)
Lemma find_loop_cases (audio : t) (name : string) :
  forall (n : nat) (i : Z),
    0 <= i ->
    i + Z.of_nat n = getDeviceCount audio ->
    (exists j,
        i <= j < getDeviceCount audio
        /\ RtAudio.name (getDeviceInfo audio j) = name
        /\ (forall k, i <= k < j ->
                      RtAudio.name (getDeviceInfo audio k) <> name)
        /\ find_loop audio name i = to_int j)
    \/ ((forall k, i <= k < getDeviceCount audio ->
                   RtAudio.name (getDeviceInfo audio k) <> name)
        /\ find_loop audio name i = -1).
Proof.
  induction n as [| n IH]; intros i Hi Hsum.
  - right. split; [intros k Hk; lia | apply find_loop_exit; lia].
  - destruct (string_dec (RtAudio.name (getDeviceInfo audio i)) name)
      as [Hhit | Hmiss].
    + left. exists i.
      split; [lia |]. split; [exact Hhit |]. split; [intros k Hk; lia |].
      apply find_loop_hit; [lia | exact Hhit].
    + rewrite find_loop_miss by (lia || exact Hmiss).
      rewrite (uint_incr_below audio) by lia.
      destruct (IH (i + 1)) as [(j & Hj & Hname & Hfirst & Hres) | [Hnone Hres]];
        try lia.
      * left. exists j.
        split; [lia |]. split; [exact Hname |]. split; [| exact Hres].
        intros k Hk. destruct (Z.eq_dec k i) as [-> | Hne];
          [exact Hmiss | apply Hfirst; lia].
      * right. split; [| exact Hres].
        intros k Hk. destruct (Z.eq_dec k i) as [-> | Hne];
          [exact Hmiss | apply Hnone; lia].
Qed.

Lemma find_cases (deviceName : string) :
  (exists j,
      0 <= j < getDeviceCount (construct : t)
      /\ RtAudio.name (getDeviceInfo (construct : t) j) = deviceName
      /\ (forall k, 0 <= k < j ->
                    RtAudio.name (getDeviceInfo (construct : t) k)
                    <> deviceName)
      /\ find deviceName = to_int j)
  \/ ((forall k, 0 <= k < getDeviceCount (construct : t) ->
                 RtAudio.name (getDeviceInfo (construct : t) k) <> deviceName)
      /\ find deviceName = -1).
Proof.
  pose proof (getDeviceCount_range (construct : t)) as Hc.
  unfold find. cbv zeta.
  apply (find_loop_cases construct deviceName
           (Z.to_nat (getDeviceCount (construct : t))) 0); lia.
Qed.

(** [find] answers -1 exactly when no enumerated device carries the name:
    a match is never reported as -1, whatever the number of devices. *)
Theorem find_sentinel_iff_no_match (deviceName : string) :
  find deviceName = -1
  <-> forall k, 0 <= k < getDeviceCount (construct : t) ->
                RtAudio.name (getDeviceInfo (construct : t) k) <> deviceName.
Proof.
  pose proof (getDeviceCount_range (construct : t)) as Hc.
  destruct (find_cases deviceName)
    as [(j & Hj & Hname & Hfirst & Hres) | [Hnone Hres]].
  - split.
    + intros Hminus. rewrite Hres in Hminus.
      exfalso. apply (to_int_not_sentinel j); [lia | exact Hminus].
    + intros Hnone. exfalso. apply (Hnone j Hj Hname).
  - split; [intros _; exact Hnone | intros _; exact Hres].
Qed.

(** A non-negative answer of [find] is an index the engine enumerates, the
    device there carries the name, and no device before it does. *)
Theorem find_nonnegative_is_first_match (deviceName : string) :
  0 <= find deviceName ->
  find deviceName < getDeviceCount (construct : t)
  /\ RtAudio.name (getDeviceInfo (construct : t) (find deviceName))
     = deviceName
  /\ forall k, 0 <= k < find deviceName ->
               RtAudio.name (getDeviceInfo (construct : t) k) <> deviceName.
Proof.
  pose proof (getDeviceCount_range (construct : t)) as Hc.
  intros Hpos.
  destruct (find_cases deviceName)
    as [(j & Hj & Hname & Hfirst & Hres) | [Hnone Hres]].
  - rewrite Hres in Hpos.
    destruct (to_int_nonneg j) as [Hid _]; [lia | exact Hpos |].
    rewrite Hres, Hid. repeat split; [lia | exact Hname | exact Hfirst].
  - rewrite Hres in Hpos. lia.
Qed.

(** While the engine enumerates at most 2^31 devices, [find] answers
    within [-1 .. count-1]. *)
Theorem find_result_range (deviceName : string) :
  getDeviceCount (construct : t) <= INT_MAX + 1 ->
  -1 <= find deviceName < getDeviceCount (construct : t).
Proof.
  pose proof (getDeviceCount_range (construct : t)) as Hc.
  intros Hsmall.
  destruct (find_cases deviceName)
    as [(j & Hj & Hname & Hfirst & Hres) | [Hnone Hres]].
  - rewrite Hres, to_int_small by lia. lia.
  - rewrite Hres. lia.
Qed.

(** [availableDevices] as a list comprehension. *)
Lemma availableDevices_as_map :
  availableDevices =
  map (device_at (construct : t))
      (seq 0 (Z.to_nat (getDeviceCount (construct : t)))).
Proof.
  pose proof (getDeviceCount_range (construct : t)) as Hc.
  unfold availableDevices. cbv zeta.
  change 0 with (Z.of_nat 0).
  rewrite (availableDevices_loop_spec construct
             (Z.to_nat (getDeviceCount (construct : t)))) by lia.
  reflexivity.
Qed.

Lemma In_availableDevices (dev : Device) :
  In dev availableDevices
  <-> exists k, 0 <= k < getDeviceCount (construct : t)
                /\ info (d dev) = getDeviceInfo (construct : t) k.
Proof.
  rewrite availableDevices_as_map, in_map_iff. split.
  - intros (i & <- & Hin). apply in_seq in Hin.
    exists (Z.of_nat i). split; [lia | reflexivity].
  - intros (k & Hk & Hinfo). exists (Z.to_nat k). split.
    + destruct dev as [[inf]]. simpl in Hinfo. subst inf.
      unfold device_at. rewrite Z2Nat.id by lia. reflexivity.
    + apply in_seq. lia.
Qed.

(** [find] and [availableDevices] agree on the engine's names.
    [deviceName] is the [std::string] that [find] compares, the
    [toStdString()] of its argument.  A non-negative answer of [find] is
    the position, in the list, of a device the engine calls [deviceName],
    so that its [name()] is [QString::fromStdString] of [deviceName]; and
    [find] answers -1 exactly when the engine calls no device of the list
    [deviceName].  Nothing is said of [find] on the [name()] of a listed
    device: that goes through both conversions of [QString]. *)
Theorem find_agrees_with_availableDevices
    {QString : Type} `{Qt.StringApi QString} (deviceName : string) :
  (0 <= find deviceName ->
     exists dev,
       nth_error (availableDevices (t := t)) (Z.to_nat (find deviceName))
         = Some dev
       /\ RtAudio.name (info (d dev)) = deviceName
       /\ Device.name dev = Qt.fromStdString deviceName)
  /\ (find deviceName = -1
      <-> forall dev, In dev (availableDevices (t := t)) ->
                      RtAudio.name (info (d dev)) <> deviceName).
Proof.
  pose proof (getDeviceCount_range (construct : t)) as Hc.
  destruct (find_cases deviceName)
    as [(j & Hj & Hname & Hfirst & Hres) | [Hnone Hres]].
  - split.
    + intros Hpos. rewrite Hres in Hpos |- *.
      destruct (to_int_nonneg j) as [-> _]; [lia | exact Hpos |].
      assert (Hinfo : RtAudio.name
                        (info (d (device_at (construct : t) (Z.to_nat j))))
                      = deviceName).
      { unfold device_at. simpl. rewrite Z2Nat.id by lia. exact Hname. }
      exists (device_at construct (Z.to_nat j)). split; [| split].
      * rewrite availableDevices_as_map, nth_error_map, nth_error_seq.
        destruct (Nat.ltb_spec (Z.to_nat j)
                    (Z.to_nat (getDeviceCount (construct : t))));
          [reflexivity | lia].
      * exact Hinfo.
      * unfold Device.name. rewrite Hinfo. reflexivity.
    + split.
      * intros Hminus. rewrite Hres in Hminus.
        exfalso. apply (to_int_not_sentinel j); [lia | exact Hminus].
      * intros Hnone. exfalso.
        apply (Hnone (device_at construct (Z.to_nat j))).
        -- apply In_availableDevices. exists j. split; [exact Hj |].
           unfold device_at. simpl. rewrite Z2Nat.id by lia. reflexivity.
        -- unfold device_at. simpl.
           rewrite Z2Nat.id by lia. exact Hname.
  - split; [rewrite Hres; intros Hpos; lia |].
    split; [| intros _; exact Hres].
    intros _ dev Hin.
    apply In_availableDevices in Hin as (k & Hk & Hinfo).
    rewrite Hinfo. apply Hnone. exact Hk.
Qed.

End LookupProperties.

Section NoDevices.
Import RtAudio Device.
Context {t : Type} `{Api t}.

(** With no device enumerated, the list of devices is empty, every lookup
    answers -1, and the list is empty only then. *)
Theorem no_devices_nothing_listed_nothing_found :
  (availableDevices (t := t) = [] <-> getDeviceCount (construct : t) = 0)
  /\ (getDeviceCount (construct : t) = 0 ->
      forall deviceName, find (t := t) deviceName = -1).
Proof.
  pose proof (getDeviceCount_range (construct : t)) as Hc.
  split.
  - rewrite availableDevices_as_map. split.
    + intros Hnil. apply (f_equal (@List.length Device)) in Hnil.
      rewrite length_map, length_seq in Hnil. simpl in Hnil. lia.
    + intros ->. reflexivity.
  - intros Hzero deviceName. unfold find. cbv zeta.
    apply find_loop_exit. lia.
Qed.

End NoDevices.

(** On the engine without hardware nothing is listed and nothing found. *)
Lemma no_devices_nothing_listed_nothing_found_witness :
  Device.availableDevices (t := NoDeviceEngine.State) = []
  /\ Device.find (t := NoDeviceEngine.State) "Speakers" = -1.
Proof.
  destruct (no_devices_nothing_listed_nothing_found (t := NoDeviceEngine.State))
    as [Hlist Hfind].
  split.
  - apply Hlist. reflexivity.
  - apply Hfind. reflexivity.
Defined.

(** On the test engine [find] answers 1 for the microphone: device 1 is the
    first, and only, device of that name. *)
Lemma find_nonnegative_is_first_match_witness :
  0 <= Device.find (t := TestEngine.State) "Microphone"
  /\ Device.find (t := TestEngine.State) "Microphone" < 4
  /\ RtAudio.name
       (RtAudio.getDeviceInfo (RtAudio.construct (t := TestEngine.State))
          (Device.find (t := TestEngine.State) "Microphone"))
     = "Microphone"%string.
Proof.
  assert (Hpos : 0 <= Device.find (t := TestEngine.State) "Microphone")
    by (vm_compute; discriminate).
  split; [exact Hpos |].
  destruct (find_nonnegative_is_first_match (t := TestEngine.State)
              "Microphone" Hpos) as (Hlt & Hname & _).
  split; [exact Hlt | exact Hname].
Defined.

(** The test engine enumerates four devices: every answer of [find] lies
    in -1 .. 3. *)
Lemma find_result_range_witness :
  RtAudio.getDeviceCount (RtAudio.construct (t := TestEngine.State))
    <= INT_MAX + 1
  /\ -1 <= Device.find (t := TestEngine.State) "USB Audio" < 4.
Proof.
  assert (Hsmall : RtAudio.getDeviceCount
                     (RtAudio.construct (t := TestEngine.State))
                   <= INT_MAX + 1)
    by (vm_compute; discriminate).
  split; [exact Hsmall |].
  apply (find_result_range (t := TestEngine.State) "USB Audio" Hsmall).
Defined.

(** On the test engine, position 2 of the list holds the device [find]
    names for [USB Audio], and its [name()] is the conversion of that
    name. *)
Lemma find_agrees_with_availableDevices_witness :
  0 <= Device.find (t := TestEngine.State) "USB Audio"
  /\ exists dev,
       nth_error (Device.availableDevices (t := TestEngine.State))
         (Z.to_nat (Device.find (t := TestEngine.State) "USB Audio"))
         = Some dev
       /\ RtAudio.name (Device.info (Device.d dev)) = "USB Audio"%string
       /\ Device.name (QString := TestQString.QString) dev
          = Qt.fromStdString "USB Audio".
Proof.
  assert (Hpos : 0 <= Device.find (t := TestEngine.State) "USB Audio")
    by (vm_compute; discriminate).
  split; [exact Hpos |].
  apply (proj1 (find_agrees_with_availableDevices
                  (t := TestEngine.State) (QString := TestQString.QString)
                  "USB Audio")).
  exact Hpos.
Defined.

(** ** More on the factory *)

Section FactoryProperties.
Import RtAudio StreamContext.
Context {t : Type} `{Api t}.

(** The parameters [create] builds, by the sign of each index. *)
Lemma create_parameters (inputDevice outputDevice : Z) (p : Private t) :
  d (create inputDevice outputDevice) = Some p ->
  inParams p =
    (if 0 <=? inputDevice
     then Some {| deviceId := to_uint inputDevice;
                  nChannels :=
                    if 1 <? inputChannels
                              (getDeviceInfo construct (to_uint inputDevice))
                    then 2 else 1;
                  firstChannel := 0 |}
     else None)
  /\ outParams p =
    (if 0 <=? outputDevice
     then Some {| deviceId := to_uint outputDevice;
                  nChannels :=
                    if 1 <? inputChannels
                              (getDeviceInfo construct (to_uint outputDevice))
                    then 2 else 1;
                  firstChannel := 0 |}
     else None).
Proof.
  unfold create.
  destruct ((inputDevice <? 0) && (outputDevice <? 0)); simpl;
    [discriminate |].
  intros E. injection E as <-. split; reflexivity.
Qed.

(** For indices in the range of [int], a direction is configured exactly
    when its index is non-negative, and its parameters then name the
    requested device and start at channel 0. *)
Theorem create_parameters_name_requested_devices
    (inputDevice outputDevice : Z) (p : Private t) :
  inputDevice <= INT_MAX ->
  outputDevice <= INT_MAX ->
  d (create inputDevice outputDevice) = Some p ->
  (inParams p <> None <-> 0 <= inputDevice)
  /\ (outParams p <> None <-> 0 <= outputDevice)
  /\ (forall ps, inParams p = Some ps ->
        deviceId ps = inputDevice /\ firstChannel ps = 0)
  /\ (forall ps, outParams p = Some ps ->
        deviceId ps = outputDevice /\ firstChannel ps = 0).
Proof.
  intros Hi Ho Hp.
  destruct (create_parameters _ _ _ Hp) as [Hin Hout].
  rewrite Hin, Hout. unfold INT_MAX in *.
  split; [| split; [| split]].
  - destruct (Z.leb_spec 0 inputDevice); split; intros F;
      try lia; try discriminate.
    exfalso. apply F. reflexivity.
  - destruct (Z.leb_spec 0 outputDevice); split; intros F;
      try lia; try discriminate.
    exfalso. apply F. reflexivity.
  - intros ps E.
    destruct (Z.leb_spec 0 inputDevice); [| discriminate].
    injection E as <-. simpl.
    split; [apply to_uint_small; unfold UINT_MAX; lia | reflexivity].
  - intros ps E.
    destruct (Z.leb_spec 0 outputDevice); [| discriminate].
    injection E as <-. simpl.
    split; [apply to_uint_small; unfold UINT_MAX; lia | reflexivity].
Qed.

(** The input direction follows the device: two channels when the selected
    device reports more than one input channel, one channel otherwise. *)
Theorem create_input_channels_follow_device
    (inputDevice outputDevice : Z) (p : Private t) (ps : StreamParameters) :
  d (create inputDevice outputDevice) = Some p ->
  inParams p = Some ps ->
  (1 < inputChannels (getDeviceInfo construct (deviceId ps)) ->
     nChannels ps = 2)
  /\ (inputChannels (getDeviceInfo construct (deviceId ps)) <= 1 ->
     nChannels ps = 1).
Proof.
  intros Hp Hps.
  destruct (create_parameters _ _ _ Hp) as [Hin _].
  rewrite Hps in Hin.
  destruct (0 <=? inputDevice); [| discriminate].
  injection Hin as ->. simpl.
  destruct (Z.ltb_spec 1
              (inputChannels (getDeviceInfo construct (to_uint inputDevice))));
    split; intros; (reflexivity || lia).
Qed.

(** Lookup and factory in sequence.  When [find] answers a non-negative
    index, [create] with that index for input yields a context whose input
    parameters select the first device of that name; when [find] answers
    -1 for both names, [create] yields the null context. *)
Theorem create_from_find (inputName outputName : string) :
  (0 <= Device.find (t := t) inputName ->
     exists p ps,
       d (create (Device.find (t := t) inputName)
                 (Device.find (t := t) outputName)) = Some p
       /\ inParams p = Some ps
       /\ deviceId ps = Device.find (t := t) inputName
       /\ name (getDeviceInfo (construct : t) (deviceId ps)) = inputName)
  /\ (Device.find (t := t) inputName = -1 ->
      Device.find (t := t) outputName = -1 ->
      d (create (Device.find (t := t) inputName)
                (Device.find (t := t) outputName)) = None).
Proof.
  pose proof (getDeviceCount_range (construct : t)) as Hc.
  split.
  - intros Hpos.
    destruct (find_cases (t := t) inputName)
      as [(j & Hj & Hname & Hfirst & Hres) | [Hnone Hres]];
      [| rewrite Hres in Hpos; lia].
    rewrite Hres in Hpos |- *.
    destruct (to_int_nonneg j) as [-> Hint]; [lia | exact Hpos |].
    unfold create.
    destruct (Z.ltb_spec j 0); [lia |]. simpl.
    destruct (Z.leb_spec 0 j); [| lia].
    eexists. eexists. split; [reflexivity |]. simpl.
    split; [reflexivity |]. simpl.
    rewrite to_uint_small by lia. split; [reflexivity | exact Hname].
  - intros -> ->. reflexivity.
Qed.

End FactoryProperties.

(** On the test engine: the context for microphone in, USB interface out. *)
Lemma create_parameters_name_requested_devices_witness :
  1 <= INT_MAX /\ 2 <= INT_MAX
  /\ exists p,
       StreamContext.d (create (t := TestEngine.State) 1 2) = Some p
       /\ (forall ps, StreamContext.inParams p = Some ps ->
             RtAudio.deviceId ps = 1 /\ RtAudio.firstChannel ps = 0)
       /\ (forall ps, StreamContext.outParams p = Some ps ->
             RtAudio.deviceId ps = 2 /\ RtAudio.firstChannel ps = 0).
Proof.
  assert (H1 : 1 <= INT_MAX) by (unfold INT_MAX; lia).
  assert (H2 : 2 <= INT_MAX) by (unfold INT_MAX; lia).
  split; [exact H1 |]. split; [exact H2 |].
  eexists. split; [reflexivity |].
  apply (create_parameters_name_requested_devices
           (t := TestEngine.State) 1 2 _ H1 H2 eq_refl).
Defined.

(** On the test engine: the USB interface has eight input channels, its
    input stream gets two. *)
Lemma create_input_channels_follow_device_witness :
  StreamContext.d (create (t := TestEngine.State) 2 (-1))
    = Some (StreamContext.Private_new
              (Some (RtAudio.mkStreamParameters 2 2 0)) None None)
  /\ 1 < RtAudio.inputChannels
           (RtAudio.getDeviceInfo (RtAudio.construct (t := TestEngine.State)) 2)
  /\ RtAudio.nChannels (RtAudio.mkStreamParameters 2 2 0) = 2.
Proof.
  split; [reflexivity |].
  assert (Hmany : 1 < RtAudio.inputChannels
                        (RtAudio.getDeviceInfo
                           (RtAudio.construct (t := TestEngine.State)) 2))
    by (simpl; lia).
  split; [exact Hmany |].
  destruct (create_input_channels_follow_device
              (t := TestEngine.State) 2 (-1)
              (StreamContext.Private_new
                 (Some (RtAudio.mkStreamParameters 2 2 0)) None None)
              (RtAudio.mkStreamParameters 2 2 0)) as [Hstereo _];
    [reflexivity | reflexivity |].
  apply Hstereo. exact Hmany.
Defined.

(** On the test engine: the microphone alone, one channel. *)
Lemma create_channels_mono_or_stereo_witness :
  StreamContext.d (create (t := TestEngine.State) 1 (-1))
    = Some (StreamContext.Private_new
              (Some (RtAudio.mkStreamParameters 1 1 0)) None None)
  /\ (RtAudio.nChannels (RtAudio.mkStreamParameters 1 1 0) = 1
      \/ RtAudio.nChannels (RtAudio.mkStreamParameters 1 1 0) = 2).
Proof.
  split; [reflexivity |].
  apply (create_channels_mono_or_stereo (t := TestEngine.State) 1 (-1)
           (StreamContext.Private_new
              (Some (RtAudio.mkStreamParameters 1 1 0)) None None)
           (RtAudio.mkStreamParameters 1 1 0)).
  - reflexivity.
  - left. reflexivity.
Defined.

(** On the test engine: the context made from the lookup of the microphone
    records from device 1. *)
Lemma create_from_find_witness :
  0 <= Device.find (t := TestEngine.State) "Microphone"
  /\ exists p ps,
       StreamContext.d
         (create (t := TestEngine.State)
                 (Device.find (t := TestEngine.State) "Microphone")
                 (Device.find (t := TestEngine.State) "Headset")) = Some p
       /\ StreamContext.inParams p = Some ps
       /\ RtAudio.deviceId ps = Device.find (t := TestEngine.State) "Microphone"
       /\ RtAudio.name
            (RtAudio.getDeviceInfo (RtAudio.construct (t := TestEngine.State))
               (RtAudio.deviceId ps)) = "Microphone"%string.
Proof.
  assert (Hpos : 0 <= Device.find (t := TestEngine.State) "Microphone")
    by (vm_compute; discriminate).
  split; [exact Hpos |].
  apply (proj1 (create_from_find (t := TestEngine.State)
                  "Microphone" "Headset")).
  exact Hpos.
Defined.

(** ** More on the stream life cycle *)

Section LifecycleCompositions.
Import RtAudio StreamContext.
Context {t : Type} `{Api t}.

Lemma stop_when_stopped (p : Private t) :
  isStreamRunning (audio p) = false ->
  stop p = (true, p, [CallIsStreamRunning]).
Proof.
  intros E. unfold stop, bind, audio_isStreamRunning, ret.
  rewrite E. reflexivity.
Qed.

Lemma stop_when_running (p : Private t) :
  isStreamRunning (audio p) = true ->
  stop p =
    (negb (isStreamRunning (stopStream (audio p))),
     set_audio (stopStream (audio p)) p,
     [CallIsStreamRunning; CallStopStream; CallIsStreamRunning]).
Proof.
  intros E. unfold stop, bind, audio_isStreamRunning, audio_stopStream, ret.
  rewrite E. reflexivity.
Qed.

Lemma close_cases (p : Private t) :
  close p =
    if isStreamOpen (audio p)
    then (tt, set_audio (closeStream (audio p)) p,
          [CallIsStreamOpen; CallCloseStream])
    else (tt, p, [CallIsStreamOpen]).
Proof.
  unfold close, bind, audio_isStreamOpen, audio_closeStream, ret.
  destruct (isStreamOpen (audio p)); reflexivity.
Qed.

(** [stop()] answers true exactly when the engine reports the stream not
    running afterwards; after such an answer a second [stop()] answers
    true again and asks the engine for nothing but the state. *)
Theorem stop_reports_engine_state (p : Private t) :
  result (stop p) = negb (isStreamRunning (audio (after (stop p))))
  /\ (result (stop p) = true ->
      stop (after (stop p)) = (true, after (stop p), [CallIsStreamRunning])).
Proof.
  assert (Hres : result (stop p)
                 = negb (isStreamRunning (audio (after (stop p))))).
  { destruct (isStreamRunning (audio p)) eqn:E.
    - rewrite stop_when_running by exact E. reflexivity.
    - rewrite stop_when_stopped by exact E. outcome. now rewrite E. }
  split; [exact Hres |].
  intros Hok. apply stop_when_stopped.
  rewrite Hres in Hok. now apply negb_true_iff in Hok.
Qed.

(** A [start()] that answers true leaves a stream the engine reports
    running, and the [stop()] that follows does ask the engine to stop it:
    one [stopStream] between two state queries. *)
Theorem start_then_stop (p : Private t) :
  result (start p) = true ->
  isStreamRunning (audio (after (start p))) = true
  /\ calls (stop (after (start p)))
     = [CallIsStreamRunning; CallStopStream; CallIsStreamRunning]
  /\ result (stop (after (start p)))
     = negb (isStreamRunning (stopStream (audio (after (start p))))).
Proof.
  intros Hok.
  assert (Hrun : isStreamRunning (audio (after (start p))) = true).
  { rewrite start_after_open in Hok |- *.
    destruct (result (open p)); [exact Hok | discriminate]. }
  split; [exact Hrun |].
  rewrite stop_when_running by exact Hrun. split; reflexivity.
Qed.

(** An [open()] that answers true leaves a stream the engine reports open,
    and the [close()] that follows does close it: one [closeStream] after
    the state query. *)
Theorem open_then_close (p : Private t) :
  result (open p) = true ->
  isStreamOpen (audio (after (open p))) = true
  /\ close (after (open p))
     = (tt, set_audio (closeStream (audio (after (open p)))) (after (open p)),
        [CallIsStreamOpen; CallCloseStream]).
Proof.
  intros Hok.
  assert (Hopen : isStreamOpen (audio (after (open p))) = true)
    by (rewrite <- open_result_is_engine_state; exact Hok).
  split; [exact Hopen |].
  rewrite close_cases, Hopen. reflexivity.
Qed.

(** [start()] on a stream the engine reports open does not open it again,
    and it asks the engine to start the stream without asking first
    whether it runs already. *)
Theorem start_on_open_stream (p : Private t) :
  isStreamOpen (audio p) = true ->
  start p =
    (isStreamRunning (startStream (audio p)),
     set_audio (startStream (audio p)) p,
     [CallIsStreamOpen; CallStartStream; CallIsStreamRunning]).
Proof.
  intros Hopen. rewrite start_after_open.
  rewrite open_when_open by exact Hopen. reflexivity.
Qed.

(** The life-cycle operations never touch the format, the sample rate, the
    stream parameters or the options of a context; [close()] and [stop()]
    leave the buffer size alone as well. *)
Theorem lifecycle_keeps_configuration (p : Private t) :
  (forall q,
      q = after (open p) \/ q = after (start p)
      \/ q = after (close p) \/ q = after (stop p) ->
      format q = format p
      /\ sampleRate q = sampleRate p
      /\ inParams q = inParams p
      /\ outParams q = outParams p
      /\ opts q = opts p)
  /\ bufferFrames (after (close p)) = bufferFrames p
  /\ bufferFrames (after (stop p)) = bufferFrames p.
Proof.
  split; [| split].
  - intros q [-> | [-> | [-> | ->]]].
    + apply open_frame.
    + rewrite start_after_open.
      destruct (result (open p)); outcome; apply open_frame.
    + rewrite close_cases.
      destruct (isStreamOpen (audio p)); outcome; tauto.
    + destruct (isStreamRunning (audio p)) eqn:E;
        [rewrite stop_when_running by exact E
        | rewrite stop_when_stopped by exact E];
        outcome; tauto.
  - rewrite close_cases.
    destruct (isStreamOpen (audio p)); reflexivity.
  - destruct (isStreamRunning (audio p)) eqn:E;
      [rewrite stop_when_running by exact E
      | rewrite stop_when_stopped by exact E];
      reflexivity.
Qed.

(** What each operation asks of the engine, and so what it never asks.
    [close()] only queries the open state and closes; [stop()] only
    queries the running state and stops; [open()] and [start()] never
    close or stop a stream, and any [openStream] they issue carries the
    configuration the context held when the operation began. *)
Theorem lifecycle_requests (p : Private t) (c : NativeCall) :
  (In c (calls (close p)) -> c = CallIsStreamOpen \/ c = CallCloseStream)
  /\ (In c (calls (stop p)) -> c = CallIsStreamRunning \/ c = CallStopStream)
  /\ (In c (calls (open p)) ->
      c = CallIsStreamOpen \/ c = CallOpenStream (open_args p))
  /\ (In c (calls (start p)) ->
      c = CallIsStreamOpen \/ c = CallOpenStream (open_args p)
      \/ c = CallStartStream \/ c = CallIsStreamRunning).
Proof.
  assert (Hopen : In c (calls (open p)) ->
            c = CallIsStreamOpen \/ c = CallOpenStream (open_args p)).
  { destruct (isStreamOpen (audio p)) eqn:E;
      [rewrite open_when_open by exact E
      | rewrite open_when_closed by exact E];
      outcome; intuition auto. }
  split; [| split; [| split; [exact Hopen |]]].
  - rewrite close_cases.
    destruct (isStreamOpen (audio p)); outcome; intuition auto.
  - destruct (isStreamRunning (audio p)) eqn:E;
      [rewrite stop_when_running by exact E
      | rewrite stop_when_stopped by exact E];
      outcome; intuition auto.
  - rewrite start_after_open.
    destruct (result (open p)); unfold calls at 1; simpl;
      fold (calls (open p)).
    + rewrite in_app_iff. simpl. intuition auto.
    + intros Hin. destruct (Hopen Hin); auto.
Qed.

(** The public [open()] and [isOpen()] agree: what [open()] returns is
    what [isOpen()] answers on the context right after. *)
Theorem StreamContext_open_agrees_with_isOpen
    (ctx ctx' : StreamContext t) (r : bool) (cs : list NativeCall) :
  StreamContext_open ctx = Some (r, ctx', cs) ->
  isOpen ctx' = Some r.
Proof.
  unfold StreamContext_open, isOpen.
  destruct (d ctx) as [p |]; [| discriminate].
  pose proof (open_result_is_engine_state p) as Hres.
  destruct (open p) as [[r0 p'] cs0]. unfold result, after in Hres.
  simpl in Hres. intros E. injection E as <- <- <-. simpl.
  now rewrite Hres.
Qed.

(** The public members dereference [d] unchecked.  On what [create]
    returns they have a defined result exactly when at least one index is
    non-negative; on the null context of two negative indices none has. *)
Theorem public_members_need_a_device (inputDevice outputDevice : Z) :
  (StreamContext_open (create inputDevice outputDevice) = None
     <-> inputDevice < 0 /\ outputDevice < 0)
  /\ (StreamContext_close (create inputDevice outputDevice) = None
     <-> inputDevice < 0 /\ outputDevice < 0)
  /\ (isOpen (create inputDevice outputDevice) = None
     <-> inputDevice < 0 /\ outputDevice < 0)
  /\ (isRunning (create inputDevice outputDevice) = None
     <-> inputDevice < 0 /\ outputDevice < 0).
Proof.
  assert (Hnull : d (create inputDevice outputDevice) = None
                  <-> inputDevice < 0 /\ outputDevice < 0).
  { unfold create.
    destruct (Z.ltb_spec inputDevice 0), (Z.ltb_spec outputDevice 0); simpl;
      (split; [intros E; try discriminate; lia | intros [? ?]; auto; lia]). }
  unfold StreamContext_open, StreamContext_close, isOpen, isRunning.
  rewrite <- Hnull.
  destruct (d (create inputDevice outputDevice)) as [p |].
  - destruct (open p) as [[r1 p1] c1], (close p) as [[r2 p2] c2].
    repeat split; intros; discriminate.
  - repeat split; reflexivity.
Qed.

End LifecycleCompositions.

(** On the test engine: the running playback stream is stopped by one
    [stop()], and a second one has nothing left to ask for. *)
Lemma stop_reports_engine_state_witness :
  StreamContext.result (StreamContext.stop TestEngine.playback_running) = true
  /\ StreamContext.stop
       (StreamContext.after (StreamContext.stop TestEngine.playback_running))
     = (true,
        StreamContext.after (StreamContext.stop TestEngine.playback_running),
        [StreamContext.CallIsStreamRunning]).
Proof.
  split; [reflexivity |].
  apply (proj2 (stop_reports_engine_state TestEngine.playback_running)).
  reflexivity.
Defined.

(** On the test engine: [start()] then [stop()] on the playback context. *)
Lemma start_then_stop_witness :
  StreamContext.result (StreamContext.start TestEngine.playback) = true
  /\ RtAudio.isStreamRunning (StreamContext.audio TestEngine.playback_running)
     = true
  /\ StreamContext.calls (StreamContext.stop TestEngine.playback_running)
     = [StreamContext.CallIsStreamRunning;
        StreamContext.CallStopStream;
        StreamContext.CallIsStreamRunning].
Proof.
  split; [reflexivity |].
  destruct (start_then_stop TestEngine.playback) as (Hrun & Hcalls & _);
    [reflexivity |].
  split; [exact Hrun | exact Hcalls].
Defined.

(** On the test engine: [open()] then [close()] on the playback context. *)
Lemma open_then_close_witness :
  StreamContext.result (StreamContext.open TestEngine.playback) = true
  /\ StreamContext.calls (StreamContext.close TestEngine.playback_opened)
     = [StreamContext.CallIsStreamOpen; StreamContext.CallCloseStream].
Proof.
  split; [reflexivity |].
  destruct (open_then_close TestEngine.playback) as [_ Hclose];
    [reflexivity |].
  unfold TestEngine.playback_opened. rewrite Hclose. reflexivity.
Defined.

(** On the test engine: [start()] on the opened playback context, and
    again on the running one. *)
Lemma start_on_open_stream_witness :
  RtAudio.isStreamOpen (StreamContext.audio TestEngine.playback_opened) = true
  /\ StreamContext.calls (StreamContext.start TestEngine.playback_opened)
     = [StreamContext.CallIsStreamOpen;
        StreamContext.CallStartStream;
        StreamContext.CallIsStreamRunning]
  /\ RtAudio.isStreamOpen (StreamContext.audio TestEngine.playback_running)
     = true
  /\ StreamContext.calls (StreamContext.start TestEngine.playback_running)
     = [StreamContext.CallIsStreamOpen;
        StreamContext.CallStartStream;
        StreamContext.CallIsStreamRunning].
Proof.
  split; [reflexivity |]. split.
  - rewrite (start_on_open_stream TestEngine.playback_opened) by reflexivity.
    reflexivity.
  - split; [reflexivity |].
    rewrite (start_on_open_stream TestEngine.playback_running) by reflexivity.
    reflexivity.
Defined.

(** On the test engine: the configuration of the playback context after
    [start()]. *)
Lemma lifecycle_keeps_configuration_witness :
  StreamContext.format TestEngine.playback_running
    = StreamContext.format TestEngine.playback
  /\ StreamContext.sampleRate TestEngine.playback_running
     = StreamContext.sampleRate TestEngine.playback
  /\ StreamContext.outParams TestEngine.playback_running
     = StreamContext.outParams TestEngine.playback.
Proof.
  destruct (proj1 (lifecycle_keeps_configuration TestEngine.playback)
              TestEngine.playback_running)
    as (Hformat & Hrate & _ & Hout & _).
  - right. left. reflexivity.
  - split; [exact Hformat |]. split; [exact Hrate | exact Hout].
Defined.

(** On the test engine: the one request [close()] makes of the opened
    playback stream. *)
Lemma lifecycle_requests_witness :
  In StreamContext.CallCloseStream
     (StreamContext.calls (StreamContext.close TestEngine.playback_opened))
  /\ (StreamContext.CallCloseStream = StreamContext.CallIsStreamOpen
      \/ StreamContext.CallCloseStream = StreamContext.CallCloseStream).
Proof.
  assert (Hin : In StreamContext.CallCloseStream
                  (StreamContext.calls
                     (StreamContext.close TestEngine.playback_opened)))
    by (right; left; reflexivity).
  split; [exact Hin |].
  apply (proj1 (lifecycle_requests TestEngine.playback_opened
                  StreamContext.CallCloseStream)).
  exact Hin.
Defined.

(** On the test engine: the public [open()] on the context for the
    speakers, and [isOpen()] after it. *)
Lemma StreamContext_open_agrees_with_isOpen_witness :
  exists ctx' cs,
    StreamContext.StreamContext_open (create (t := TestEngine.State) (-1) 0)
      = Some (true, ctx', cs)
    /\ StreamContext.isOpen ctx' = Some true.
Proof.
  eexists. eexists. split; [reflexivity |].
  eapply (StreamContext_open_agrees_with_isOpen
            (create (t := TestEngine.State) (-1) 0)).
  reflexivity.
Defined.

(** ** The configuration over the life of a context *)

Section ConfigurationProperties.
Import RtAudio StreamContext.
Context {t : Type} `{Api t}.




End ConfigurationProperties.


